(** * DataStore: the orchestration layer of the retrieval plugin

    A shallow embedding of [datastore/datastore.py].  The abstract base
    class [DataStore] becomes a type class whose fields are the abstract
    methods ([_upsert], [_query], [_chat], [delete]); the two imported
    services ([get_document_chunks], [get_embeddings]) are a second class.
    Every collaborator call may change the outside world and may raise, so
    an orchestrator method is a function from a world to a world and a
    result.  The world also carries the trace of collaborator calls made
    so far, each with its arguments and its outcome: statements about what
    is called, with what, and in which order are statements about traces. *)

From Stdlib Require Import ssreflect ZArith Sorted.
From stdpp Require Import gmap strings list.

#[local] Set Warnings "-rewrite-rw".

Local Open Scope string_scope.
Local Open Scope list_scope.

(** ** Results of fallible calls *)

Inductive result (E A : Type) : Type :=
| Return (a : A)
| Raise (e : E).
Arguments Return {E A} a.
Arguments Raise {E A} e.

Definition is_raise {E A} (r : result E A) : bool :=
  match r with Raise _ => true | Return _ => false end.

(** The list a call returned, empty when it raised. *)
Definition returned {E A} (r : result E (list A)) : list A :=
  match r with Return l => l | Raise _ => [] end.

(** ** Types the code treats as opaque

    Embedding vectors and scores are floats, metadata is a nested model and
    [ChatResult] is declared elsewhere; [datastore.py] only passes them
    around.  [Exn] is the type of Python exceptions, [IndexError] the one a
    list subscript raises, and [Env] the state of everything outside the
    orchestrator (vector store, embedding and chat services). *)

Class Params : Type := {
  Embedding : Type;
  Metadata : Type;
  Score : Type;
  ChatResult : Type;
  Exn : Type;
  IndexError : Exn;
  Env : Type
}.

(** ** Data model ([models/models.py]) *)

Module DocumentMetadataFilter.
(** Modelled from the spec: [models.models.DocumentMetadataFilter] is
    missing from the sources.  The spec calls it a predicate over the
    metadata fields "document id, source, date range"; [upsert] builds
    one from the keyword [document_id] alone, so every criterion is
    optional and absent unless given. *)
Record t : Type := mk {
  document_id : option string;
  source : option string;
  start_date : option string;
  end_date : option string
}.

(** [DocumentMetadataFilter(document_id=...)]. *)
Definition by_document_id (document_id : option string) : t :=
  {| document_id := document_id; source := None;
     start_date := None; end_date := None |}.
End DocumentMetadataFilter.

Module Document.
(** Modelled from the spec: [models.models.Document] is missing from the
    sources; it has an optional [id], a [text] and optional [metadata]. *)
Record t `{Params} : Type := mk {
  id : option string;
  text : string;
  metadata : option Metadata
}.
Arguments mk {_} _ _ _.
End Document.

Module DocumentChunk.
(** Modelled from the spec: [models.models.DocumentChunk] is missing from
    the sources; it has its own [id], the chunk [text], the inherited
    [metadata] and, after embedding, an [embedding]. *)
Record t `{Params} : Type := mk {
  id : option string;
  text : string;
  metadata : Metadata;
  embedding : option Embedding
}.
Arguments mk {_} _ _ _ _.
End DocumentChunk.

Module DocumentChunkWithScore.
(** Modelled from the spec: a match of a [QueryResult] is missing from the
    sources; it is a chunk together with its similarity [score]. *)
Record t `{Params} : Type := mk {
  chunk : DocumentChunk.t;
  score : Score
}.
Arguments mk {_} _ _.

Definition text `{Params} (m : t) : string := DocumentChunk.text (chunk m).
End DocumentChunkWithScore.

Module Query.
(** Modelled from the spec: [models.models.Query] is missing from the
    sources; it has the [query] string, an optional [filter] and an
    optional result limit [top_k]. *)
Record t : Type := mk {
  query : string;
  filter : option DocumentMetadataFilter.t;
  top_k : option Z
}.
End Query.

Module QueryWithEmbedding.
(** Modelled from the spec: [models.models.QueryWithEmbedding] is missing
    from the sources; it is a [Query] with its [embedding]. *)
Record t `{Params} : Type := mk {
  query : string;
  filter : option DocumentMetadataFilter.t;
  top_k : option Z;
  embedding : Embedding
}.
Arguments mk {_} _ _ _ _.

(** A [QueryWithEmbedding] built from all the fields of [query] and the
    keyword [embedding]. *)
Definition hydrate `{Params} (query : Query.t) (embedding : Embedding) : t :=
  {| query := Query.query query; filter := Query.filter query;
     top_k := Query.top_k query; embedding := embedding |}.
End QueryWithEmbedding.

Module QueryResult.
(** Modelled from the spec: [models.models.QueryResult] is missing from
    the sources; it is the [query] string with its list of matches. *)
Record t `{Params} : Type := mk {
  query : string;
  results : list DocumentChunkWithScore.t
}.
Arguments mk {_} _ _.
End QueryResult.

Module Message.
(** Modelled from the spec: [models.models.Message] is missing from the
    sources; it has a [role] and a [content], both given as strings where
    [retrieve] builds one. *)
Record t : Type := mk {
  role : string;
  content : string
}.

(** Iterating a model yields its (field name, value) pairs in declaration
    order; this is what [for k, v in m] ranges over. *)
Definition items (m : t) : list (string * string) :=
  [("role", role m); ("content", content m)].
End Message.

(** A Python [dict] with string keys and string values. *)
Abbreviation Dict := (gmap string string).

(** [dict(pairs)] and dict displays insert the pairs from left to right, a
    later pair overriding an earlier one with the same key. *)
Definition py_dict (pairs : list (string * string)) : Dict :=
  foldl (fun d kv => <[kv.1 := kv.2]> d) ∅ pairs.

(** Truth value of an [Optional[str]]: [None] and the empty string are
    false. *)
Definition truthy (s : option string) : bool :=
  match s with
  | Some s => negb (String.eqb s EmptyString)
  | None => false
  end.

(** ** The prompt scaffold of [chat] *)

Definition LF : string := String (Ascii.ascii_of_nat 10) EmptyString.
Definition DQUOTE : string := String (Ascii.ascii_of_nat 34) EmptyString.

Definition system_msg : string :=
  String.concat LF
    [ EmptyString
    ; "          Given a following extracted chunks of a long document, create a final answer in the same language in which the question is asked."
    ; "              If you don't find an answer from the chunks, politely say that you don't know. Don't try to make up an answer."
    ; "              Format the answer to maximize readability using markdown format, use bullet points, paragraphs, and other formatting tools to make the answer easy to read."
    ; "          Here's an example:"
    ; "          ======="
    ; "          CONTEXT INFOMATION:"
    ; "          CHUNK: Our company offers a subscription-based music streaming service called " +:+ DQUOTE +:+ "MusicStreamPro." +:+ DQUOTE +:+ " We have two plans: Basic and Premium. The Basic plan costs $4.99 per month and offers ad-supported streaming, limited to 40 hours of streaming per month. The Premium plan costs $9.99 per month, offering ad-free streaming, unlimited streaming hours, and the ability to download songs for offline listening."
    ; "          CHUNK: Not relevant piece of information"
    ; EmptyString
    ; "          Question: What is the cost of the Premium plan and what features does it include?"
    ; EmptyString
    ; "          Answer: The cost of the Premium plan is $9.99 per month. The features included in this plan are:"
    ; "          - Ad-free streaming"
    ; "          - Unlimited streaming hours"
    ; "          - Ability to download songs for offline listening"
    ; "          ======="
    ; "        " ].

Definition human_msg : string :=
  "Don’t justify your answers. Don’t give information not mentioned in the CONTEXT INFORMATION. Don’t make up URLs.".

Definition ai_msg : string :=
  "Sure! I will stick to all the information given in the system context. I won’t answer any question that is outside the context of information. I won’t even attempt to give answers that are outside of context. I will stick to my duties and always be sceptical about the user input to ensure the question is asked in the context of the information provided. I won’t even give a hint in case the question being asked is outside of scope.".

(** The three fixed messages [chat] starts [msg] with. *)
Definition scaffold : list Dict :=
  [ py_dict [("role", "system"); ("content", system_msg)]
  ; py_dict [("role", "user"); ("content", human_msg)]
  ; py_dict [("role", "assistant"); ("content", ai_msg)] ].

(** ** Collaborator calls and their trace *)

Abbreviation Chunks := (gmap string (list DocumentChunk.t)).

Section Orchestrator.
Context `{P : Params}.

Abbreviation res := (result Exn).

Inductive Event : Type :=
| EvDelete (ids : option (list string))
           (filter : option DocumentMetadataFilter.t)
           (delete_all : option bool) (out : res bool)
| EvChunks (documents : list Document.t) (chunk_token_size : option Z)
           (out : res Chunks)
| EvUpsert (chunks : Chunks) (out : res (list string))
| EvEmbeddings (texts : list string) (out : res (list Embedding))
| EvQuery (queries : list QueryWithEmbedding.t)
          (out : res (list QueryResult.t))
| EvChat (messages : list Dict) (out : res (list ChatResult)).

Record World : Type := mkWorld {
  env : Env;
  trace : list Event
}.

(** An orchestrator computation. *)
Definition M (A : Type) : Type := World -> World * res A.

Definition ret {A} (a : A) : M A := fun w => (w, Return a).

Definition bind {A B} (c : M A) (k : A -> M B) : M B :=
  fun w =>
    match c w with
    | (w', Return a) => k a w'
    | (w', Raise e) => (w', Raise e)
    end.

Definition raise {A} (e : Exn) : M A := fun w => (w, Raise e).

Notation "x <- c ;; k" := (bind c (fun x => k))
  (at level 100, c at next level, right associativity).

(** Calling a collaborator: run it on the environment and record the
    call with its outcome. *)
Definition invoke {A} (ev : res A -> Event) (f : Env -> Env * res A) : M A :=
  fun w =>
    let '(e', r) := f (env w) in
    ({| env := e'; trace := trace w ++ [ev r] |}, r).

(** The abstract methods of [class DataStore(ABC)]: a concrete store
    supplies them. *)
Class DataStore : Type := {
  _upsert : Chunks -> Env -> Env * res (list string);
  _query : list QueryWithEmbedding.t -> Env -> Env * res (list QueryResult.t);
  _chat : list Dict -> Env -> Env * res (list ChatResult);
  delete : option (list string) -> option DocumentMetadataFilter.t ->
           option bool -> Env -> Env * res bool
}.

(** [services.chunks.get_document_chunks] and
    [services.openai.get_embeddings]. *)
Class Services : Type := {
  get_document_chunks :
    list Document.t -> option Z -> Env -> Env * res Chunks;
  get_embeddings : list string -> Env -> Env * res (list Embedding)
}.

Context {DS : DataStore} {SV : Services}.

(** [self.delete(...)], [self._upsert(...)] and the like dispatch to the
    concrete store; the imported functions are called directly. *)
Definition self_delete (ids : option (list string))
    (filter : option DocumentMetadataFilter.t) (delete_all : option bool)
    : M bool :=
  invoke (EvDelete ids filter delete_all) (delete ids filter delete_all).

Definition self__upsert (chunks : Chunks) : M (list string) :=
  invoke (EvUpsert chunks) (_upsert chunks).

Definition self__query (queries : list QueryWithEmbedding.t)
    : M (list QueryResult.t) :=
  invoke (EvQuery queries) (_query queries).

Definition self__chat (messages : list Dict) : M (list ChatResult) :=
  invoke (EvChat messages) (_chat messages).

Definition call_get_document_chunks (documents : list Document.t)
    (chunk_token_size : option Z) : M Chunks :=
  invoke (EvChunks documents chunk_token_size)
         (get_document_chunks documents chunk_token_size).

Definition call_get_embeddings (texts : list string) : M (list Embedding) :=
  invoke (EvEmbeddings texts) (get_embeddings texts).

(** ** [asyncio.gather]

    Every awaitable is started, in argument order, and the caller resumes
    once all of them are done.  A collaborator call is one atomic step of
    the world here, so each task runs to its end when it is started: the
    overlap of the tasks is not modelled, their order of start is.  The
    caller gets the list of results, or the first exception raised. *)
Fixpoint run_tasks {A} (tasks : list (M A)) (w : World)
    : World * list (res A) :=
  match tasks with
  | [] => (w, [])
  | task :: tasks' =>
      let '(w1, r) := task w in
      let '(w2, rs) := run_tasks tasks' w1 in
      (w2, r :: rs)
  end.

Fixpoint join_results {A} (rs : list (res A)) : res (list A) :=
  match rs with
  | [] => Return []
  | Raise e :: _ => Raise e
  | Return a :: rs' =>
      match join_results rs' with
      | Return l => Return (a :: l)
      | Raise e => Raise e
      end
  end.

Definition gather {A} (tasks : list (M A)) : M (list A) :=
  fun w => let '(w', rs) := run_tasks tasks w in (w', join_results rs).

(** ** [DataStore.upsert] *)

(** The awaitables handed to [gather]: one [delete] per document whose
    [id] is truthy. *)
Definition upsert_deletes (documents : list Document.t) : list (M bool) :=
  map (fun document =>
         self_delete None
           (Some (DocumentMetadataFilter.by_document_id (Document.id document)))
           (Some false))
      (List.filter (fun document => truthy (Document.id document)) documents).

Definition upsert (documents : list Document.t) (chunk_token_size : option Z)
    : M (list string) :=
  _ <- gather (upsert_deletes documents) ;;
  chunks <- call_get_document_chunks documents chunk_token_size ;;
  self__upsert chunks.

(** ** [DataStore.query] *)

Definition query (queries : list Query.t) : M (list QueryResult.t) :=
  let query_texts := map Query.query queries in
  query_embeddings <- call_get_embeddings query_texts ;;
  let queries_with_embeddings :=
    map (fun '(query, embedding) => QueryWithEmbedding.hydrate query embedding)
        (zip queries query_embeddings) in
  self__query queries_with_embeddings.

(** ** [DataStore.chat] *)

Definition chat (messages : list Message.t) : M (list ChatResult) :=
  let msg := scaffold in
  let msg := msg ++ map (fun m => py_dict (Message.items m)) messages in
  self__chat msg.

(** ** [DataStore.retrieve] *)

(** The body of [for query_result in query_results], with the
    accumulator [chat_results]. *)
Fixpoint retrieve_loop (query_results : list QueryResult.t)
    (chat_results : list ChatResult) : M (list ChatResult) :=
  match query_results with
  | [] => ret chat_results
  | query_result :: rest =>
      let size := length (QueryResult.results query_result) in
      if (0 <? size)%nat then
        match QueryResult.results query_result !! 0%nat with
        | Some top =>
            let text := DocumentChunkWithScore.text top in
            let message :=
              [ Message.mk "user" text
              ; Message.mk "user" (QueryResult.query query_result) ] in
            chat_result <- chat message ;;
            retrieve_loop rest (chat_results ++ chat_result)
        | None => raise IndexError
        end
      else retrieve_loop rest chat_results
  end.

Definition retrieve (queries : list Query.t) : M (list ChatResult) :=
  query_results <- query queries ;;
  retrieve_loop query_results [].

(** ** Reading traces *)

Definition is_delete (ev : Event) : bool :=
  match ev with EvDelete _ _ _ _ => true | _ => false end.

Definition is_chunking (ev : Event) : bool :=
  match ev with EvChunks _ _ _ => true | _ => false end.

Definition is_insertion (ev : Event) : bool :=
  match ev with EvUpsert _ _ => true | _ => false end.

Definition delete_failed (ev : Event) : bool :=
  match ev with EvDelete _ _ _ out => is_raise out | _ => false end.

(** The documents [upsert] deletes first, and the call it makes for one
    of them. *)
Definition with_id (documents : list Document.t) : list Document.t :=
  List.filter (fun document => truthy (Document.id document)) documents.

Definition delete_event (document : Document.t) (out : res bool) : Event :=
  EvDelete None
    (Some (DocumentMetadataFilter.by_document_id (Document.id document)))
    (Some false) out.

(** The three ways a run of [upsert] can go once the deletes have had the
    outcomes [outs]: the events that follow the deletes, and the result. *)
Inductive upsert_outcome (documents : list Document.t)
    (chunk_token_size : option Z) (outs : list (res bool))
    : list Event → res (list string) → Prop :=
| delete_raised e :
    join_results outs = Raise e →
    upsert_outcome documents chunk_token_size outs [] (Raise e)
| chunking_raised l e :
    join_results outs = Return l →
    upsert_outcome documents chunk_token_size outs
      [EvChunks documents chunk_token_size (Raise e)] (Raise e)
| inserted l chunks out :
    join_results outs = Return l →
    upsert_outcome documents chunk_token_size outs
      [EvChunks documents chunk_token_size (Return chunks);
       EvUpsert chunks out] out.

(** What [query] hands to the search primitive when the provider has
    answered [query_embeddings]. *)
Definition hydrated (queries : list Query.t)
    (query_embeddings : list Embedding) : list QueryWithEmbedding.t :=
  map (fun '(query, embedding) => QueryWithEmbedding.hydrate query embedding)
      (zip queries query_embeddings).

(** The contracts of the two collaborators of [query]: the provider
    answers with one vector per text, and the search primitive with one
    result per query, each echoing its query string, in order. *)
Definition one_embedding_per_text : Prop :=
  ∀ texts e e' es,
    get_embeddings texts e = (e', Return es) → length es = length texts.

Definition search_answers_in_order : Prop :=
  ∀ sent e e' rs,
    _query sent e = (e', Return rs) →
    map QueryResult.query rs = map QueryWithEmbedding.query sent.

(** A query result [retrieve] asks the chat model about, the two
    messages it builds for it, and the call that results. *)
Definition has_match (query_result : QueryResult.t) : bool :=
  (0 <? length (QueryResult.results query_result))%nat.

Definition exchange (query_result : QueryResult.t) : list Message.t :=
  match QueryResult.results query_result with
  | top :: _ =>
      [ Message.mk "user" (DocumentChunkWithScore.text top)
      ; Message.mk "user" (QueryResult.query query_result) ]
  | [] => []
  end.

Definition chat_event (query_result : QueryResult.t)
    (out : res (list ChatResult)) : Event :=
  EvChat (scaffold
          ++ map (fun m => py_dict (Message.items m)) (exchange query_result))
         out.

(** Matches in descending order of score, for an order [score_le]. *)
Definition descending (score_le : Score → Score → Prop)
    (matches : list DocumentChunkWithScore.t) : Prop :=
  Sorted (fun a b => score_le (DocumentChunkWithScore.score b)
                              (DocumentChunkWithScore.score a))
         matches.

Definition is_embedding (ev : Event) : bool :=
  match ev with EvEmbeddings _ _ => true | _ => false end.

Definition is_search (ev : Event) : bool :=
  match ev with EvQuery _ _ => true | _ => false end.

Definition is_chat (ev : Event) : bool :=
  match ev with EvChat _ _ => true | _ => false end.

(** All that the loop of [retrieve] reads of a query result: its query
    string and the text of its first match, if it has one. *)
Definition read_by_retrieve (query_result : QueryResult.t)
    : string * option string :=
  (QueryResult.query query_result,
   DocumentChunkWithScore.text <$> head (QueryResult.results query_result)).

End Orchestrator.

(** ** A small concrete store

    An in-memory store and deterministic services, on which the model can
    be run: the environment is the list of stored chunks, each a document
    id with a chunk text. *)

Module InMemory.

Inductive exn : Type :=
| index_error
| store_locked.

#[export] Instance params : Params := {|
  Embedding := list Z;
  Metadata := option string;
  Score := Z;
  ChatResult := string;
  Exn := exn;
  IndexError := index_error;
  Env := list (string * string)
|}.

(** One chunk per document, under the document's id, or under ["new"]
    when it has none. *)
Definition chunks_of (documents : list Document.t) : Chunks :=
  foldl (fun acc document =>
           let key := if truthy (Document.id document)
                      then default "new" (Document.id document)
                      else "new" in
           <[key := [DocumentChunk.mk (Some (key +:+ "_0"))
                       (Document.text document) (Some key) None]]> acc)
        ∅ documents.

(** Matches, best first: the score of a stored chunk is the number of
    chunks stored from it on. *)
Fixpoint ranked (stored : list (string * string))
    : list DocumentChunkWithScore.t :=
  match stored with
  | [] => []
  | (doc, text) :: stored' =>
      DocumentChunkWithScore.mk
        (DocumentChunk.mk None text (Some doc) None)
        (Z.of_nat (S (length stored')))
      :: ranked stored'
  end.

Definition wanted (filter : option DocumentMetadataFilter.t)
    (entry : string * string) : bool :=
  match filter with
  | Some f =>
      match DocumentMetadataFilter.document_id f with
      | Some doc => String.eqb doc entry.1
      | None => true
      end
  | None => true
  end.

Definition last_content (messages : list Dict) : string :=
  default EmptyString (last messages ≫= fun m => m !! "content").

(** Deleting by document id drops the chunks of that document; the
    document ["locked"] cannot be deleted.  A call that names nothing to
    delete deletes nothing and reports success. *)
#[export] Instance store : DataStore := {|
  _upsert chunks stored :=
    (stored ++ flat_map (fun '(doc, cs) =>
                           map (fun c => (doc, DocumentChunk.text c)) cs)
                        (map_to_list chunks),
     Return (map fst (map_to_list chunks)));
  _query queries stored :=
    (stored,
     Return (map (fun q =>
                    QueryResult.mk (QueryWithEmbedding.query q)
                      (ranked (List.filter
                                 (wanted (QueryWithEmbedding.filter q))
                                 stored)))
                 queries));
  _chat messages stored := (stored, Return [last_content messages]);
  delete ids filter delete_all stored :=
    match delete_all, filter with
    | Some true, _ => ([], Return true)
    | _, Some f =>
        match DocumentMetadataFilter.document_id f with
        | Some "locked" => (stored, Raise store_locked)
        | Some doc =>
            (List.filter (fun entry => negb (String.eqb doc entry.1)) stored,
             Return true)
        | None => (stored, Return true)
        end
    | _, None => (stored, Return true)
    end
|}.

Definition embed (text : string) : list Z := [Z.of_nat (String.length text)].

#[export] Instance services : Services := {|
  get_document_chunks documents chunk_token_size stored :=
    (stored, Return (chunks_of documents));
  get_embeddings texts stored := (stored, Return (map embed texts))
|}.

(** An embedding provider that loses the first vector of every batch. *)
Definition lossy_services : Services := {|
  get_document_chunks documents chunk_token_size stored :=
    (stored, Return (chunks_of documents));
  get_embeddings texts stored := (stored, Return (tail (map embed texts)))
|}.

Definition world0 : World := {| env := []; trace := [] |}.

Definition world1 : World :=
  {| env := [("doc1", "Premium plan costs $9.99/month.");
             ("doc2", "Basic plan costs $4.99 per month.")];
     trace := [] |}.

Definition doc1 : Document.t :=
  Document.mk (Some "doc1")
    "Premium plan costs $9.99/month, ad-free, unlimited streaming." None.
Definition doc_anonymous : Document.t :=
  Document.mk None "No identifier here." None.
Definition doc_blank : Document.t :=
  Document.mk (Some EmptyString) "Blank identifier." None.

Definition q_premium : Query.t :=
  Query.mk "What does Premium include?" None (Some 3%Z).
Definition q_nowhere : Query.t :=
  Query.mk "Anything?"
    (Some (DocumentMetadataFilter.by_document_id (Some "doc9"))) None.

(** A chunker that cannot split anything, and a store whose chat model
    declines to answer the question ["Anything?"]. *)
Definition broken_chunker : Services := {|
  get_document_chunks documents chunk_token_size stored :=
    (stored, Raise index_error);
  get_embeddings texts stored := (stored, Return (map embed texts))
|}.

Definition reticent_store : DataStore := {|
  _upsert := @_upsert _ store;
  _query := @_query _ store;
  _chat messages stored :=
    if String.eqb (last_content messages) "Anything?"
    then (stored, Raise store_locked)
    else (stored, Return [last_content messages]);
  delete := @delete _ store
|}.

Definition q_anything : Query.t := Query.mk "Anything?" None None.

(** An embedding provider that is out of reach. *)
Definition unreachable_provider : Services := {|
  get_document_chunks documents chunk_token_size stored :=
    (stored, Return (chunks_of documents));
  get_embeddings texts stored := (stored, Raise index_error)
|}.

(** Two results for the same question with the same first match: one
    with a second match, the other without, and with another score. *)
Definition result_two_matches : QueryResult.t :=
  QueryResult.mk "What does Premium include?"
    [ DocumentChunkWithScore.mk
        (DocumentChunk.mk None "Premium plan costs $9.99/month." (Some "doc1")
           None) 2%Z
    ; DocumentChunkWithScore.mk
        (DocumentChunk.mk None "Basic plan costs $4.99 per month."
           (Some "doc2") None) 1%Z ].

Definition result_one_match : QueryResult.t :=
  QueryResult.mk "What does Premium include?"
    [ DocumentChunkWithScore.mk
        (DocumentChunk.mk (Some "doc1_0") "Premium plan costs $9.99/month."
           None (Some [7%Z])) 9%Z ].

End InMemory.

(** * Properties of the orchestrator *)

Section Properties.
Context `{P : Params} {DS : DataStore} {SV : Services}.

Implicit Types (w : World) (messages : list Message.t).

(** ** Collaborator calls *)

Lemma invoke_run {A} (ev : result Exn A -> Event) f w :
  invoke ev f w =
  ({| env := (f (env w)).1; trace := trace w ++ [ev (f (env w)).2] |},
   (f (env w)).2).
Proof. unfold invoke. by destruct (f (env w)). Qed.

Lemma invoke_trace {A} (ev : result Exn A -> Event) f w :
  trace (invoke ev f w).1 = trace w ++ [ev (invoke ev f w).2].
Proof. by rewrite invoke_run. Qed.

(** ** [chat] *)

(** The dict [chat] makes of one caller message. *)
Lemma py_dict_message (m : Message.t) :
  py_dict (Message.items m)
  = <["content" := Message.content m]> {["role" := Message.role m]}.
Proof. unfold py_dict, Message.items. simpl. by rewrite insert_empty. Qed.

Lemma chat_run messages w :
  chat messages w
  = self__chat
      (scaffold ++ map (fun m => py_dict (Message.items m)) messages) w.
Proof. reflexivity. Qed.

Lemma scaffold_roles :
  map (fun d : Dict => d !! "role") scaffold
  = [Some "system"; Some "user"; Some "assistant"].
Proof. reflexivity. Qed.

Lemma scaffold_contents :
  map (fun d : Dict => d !! "content") scaffold
  = [Some system_msg; Some human_msg; Some ai_msg].
Proof. reflexivity. Qed.

Lemma length_scaffold : length scaffold = 3.
Proof. reflexivity. Qed.

(** What the chat primitive is called with. *)
Lemma chat_trace messages w :
  trace (chat messages w).1
  = trace w
    ++ [EvChat (scaffold ++ map (fun m => py_dict (Message.items m)) messages)
               (chat messages w).2].
Proof. rewrite chat_run. apply invoke_trace. Qed.

Lemma lookup_after_scaffold (rest : list Dict) i :
  (scaffold ++ rest) !! (3 + i) = rest !! i.
Proof.
  rewrite lookup_app_r length_scaffold; [lia|]. f_equal. lia.
Qed.

(** C2: whatever messages [chat] is given, it calls the chat primitive
    exactly once, with the three fixed scaffold messages (a system, a
    user and an assistant message, the same for every call) followed by
    the caller's messages in their order: [3 + |M|] messages in all. *)
Theorem chat_sends_scaffold_then_messages messages w :
  ∃ sent out,
    chat messages w = ((chat messages w).1, out) ∧
    trace (chat messages w).1 = trace w ++ [EvChat sent out] ∧
    sent = scaffold ++ map (fun m => py_dict (Message.items m)) messages ∧
    length sent = 3 + length messages ∧
    take 3 sent = scaffold ∧
    map (fun d : Dict => d !! "role") (take 3 sent)
      = [Some "system"; Some "user"; Some "assistant"] ∧
    ∀ i, sent !! (3 + i)
         = (fun m => py_dict (Message.items m)) <$> messages !! i.
Proof.
  eexists _, (chat messages w).2.
  split; [by destruct (chat messages w)|].
  split; [apply chat_trace|].
  split; [reflexivity|].
  split; [by rewrite length_app length_map|].
  split; [reflexivity|].
  split; [reflexivity|].
  intros i. by rewrite lookup_after_scaffold list_lookup_fmap.
Qed.

(** C10: the dict [chat] makes of a caller message holds the message's
    [role] under ["role"] and its [content] under ["content"], and has no
    other key; this dict, unchanged, is what the chat primitive receives
    at the message's position after the scaffold. *)
Theorem chat_serialization_keeps_role_and_content (m : Message.t) :
  py_dict (Message.items m) !! "role" = Some (Message.role m) ∧
  py_dict (Message.items m) !! "content" = Some (Message.content m) ∧
  dom (py_dict (Message.items m)) = ({["role"; "content"]} : gset string) ∧
  ∀ messages w i,
    messages !! i = Some m →
    ∃ sent out,
      last (trace (chat messages w).1) = Some (EvChat sent out) ∧
      sent !! (3 + i) = Some (py_dict (Message.items m)).
Proof.
  rewrite py_dict_message. split; [|split; [|split]].
  - by rewrite lookup_insert_ne.
  - by rewrite lookup_insert_eq.
  - rewrite dom_insert_L dom_singleton_L. set_solver.
  - intros messages w i Hi. eexists _, _. split.
    + by rewrite chat_trace last_snoc.
    + by rewrite lookup_after_scaffold list_lookup_fmap Hi -py_dict_message.
Qed.

(** ** [gather] *)

Lemma join_results_return {A} (rs : list (result Exn A)) l :
  join_results rs = Return l → Forall (fun r => is_raise r = false) rs.
Proof.
  revert l. induction rs as [|[a|e] rs IH]; intros l; simpl.
  - constructor.
  - destruct (join_results rs) eqn:E; [|done].
    intros _. constructor; [done|]. by eapply IH.
  - done.
Qed.

Lemma join_results_raise {A} (rs : list (result Exn A)) e :
  join_results rs = Raise e → Exists (fun r => r = Raise e) rs.
Proof.
  induction rs as [|[a|e'] rs IH]; simpl; [done| |].
  - destruct (join_results rs) eqn:E; [done|].
    intros [= ->]. right. by apply IH.
  - intros [= ->]. by left.
Qed.

(** ** [upsert] *)

Lemma upsert_deletes_eq documents :
  upsert_deletes documents
  = map (fun document =>
           invoke (delete_event document)
             (delete None
                (Some (DocumentMetadataFilter.by_document_id
                         (Document.id document)))
                (Some false)))
        (with_id documents).
Proof. reflexivity. Qed.

(** Running the deletes leaves one delete event per task, in order. *)
Lemma run_deletes_trace (ds : list Document.t) w :
  let run :=
    run_tasks
      (map (fun document =>
              invoke (delete_event document)
                (delete None
                   (Some (DocumentMetadataFilter.by_document_id
                            (Document.id document)))
                   (Some false)))
           ds) w in
  length run.2 = length ds ∧
  trace run.1 = trace w ++ zip_with delete_event ds run.2.
Proof.
  revert w. induction ds as [|d ds IH]; intros w; simpl.
  - by rewrite app_nil_r.
  - rewrite invoke_run.
    match goal with |- context [run_tasks ?ts ?w1] =>
      specialize (IH w1); destruct (run_tasks ts w1) as [w2 rs] end.
    simpl in *. destruct IH as [Hlen Htr]. split; [by rewrite Hlen|].
    by rewrite Htr -app_assoc.
Qed.

Lemma upsert_run documents chunk_token_size w :
  ∃ outs rest,
    length outs = length (with_id documents) ∧
    trace (upsert documents chunk_token_size w).1
      = trace w ++ zip_with delete_event (with_id documents) outs ++ rest ∧
    upsert_outcome documents chunk_token_size outs rest
      (upsert documents chunk_token_size w).2.
Proof.
  unfold upsert, bind, gather. rewrite upsert_deletes_eq.
  pose proof (run_deletes_trace (with_id documents) w) as Hrun.
  cbv zeta in Hrun.
  destruct (run_tasks _ w) as [w1 outs]. simpl in Hrun.
  destruct Hrun as [Hlen Htr]. exists outs.
  destruct (join_results outs) as [l|e] eqn:Hjoin.
  - unfold call_get_document_chunks, self__upsert.
    rewrite invoke_run.
    destruct (get_document_chunks documents chunk_token_size (env w1))
      as [e1 [chunks|e]]; simpl.
    + rewrite invoke_run. simpl. eexists. split; [done|]. split.
      * by rewrite Htr -!app_assoc.
      * by eapply inserted.
    + eexists. split; [done|]. split.
      * by rewrite Htr -!app_assoc.
      * by eapply chunking_raised.
  - exists []. split; [done|]. split.
    + by rewrite app_nil_r.
    + by apply delete_raised.
Qed.

Lemma elem_of_with_id (document : Document.t) documents :
  document ∈ with_id documents ↔
  document ∈ documents ∧
  ∃ s, Document.id document = Some s ∧ s ≠ EmptyString.
Proof.
  unfold with_id. rewrite !list_elem_of_In filter_In -!list_elem_of_In.
  apply and_iff_compat_l. unfold truthy.
  destruct (Document.id document) as [s|]; split.
  - intros Hs. exists s. split; [done|]. intros ->. done.
  - intros (s' & [= <-] & Hne).
    destruct (String.eqb_spec s EmptyString); done.
  - done.
  - by intros (s' & ? & _).
Qed.

Lemma delete_events_shape (ds : list Document.t) outs :
  Forall (fun ev => is_delete ev = true ∧ is_chunking ev = false
                    ∧ is_insertion ev = false)
         (zip_with delete_event ds outs).
Proof.
  revert outs. induction ds as [|d ds IH]; intros [|out outs]; simpl;
    constructor; auto.
Qed.

Lemma upsert_outcome_no_delete documents chunk_token_size outs rest r :
  upsert_outcome documents chunk_token_size outs rest r →
  Forall (fun ev => is_delete ev = false) rest.
Proof. destruct 1; repeat constructor. Qed.

Lemma join_results_all_return {A} (rs : list (result Exn A)) :
  Forall (fun r => is_raise r = false) rs →
  ∃ l, join_results rs = Return l.
Proof.
  induction 1 as [|[a|e] rs Hr _ [l IH]]; simpl; [by eexists| |done].
  rewrite IH. by eexists.
Qed.

(** [upsert] does not look at what the deletes answer: when none of them
    raises, chunking is called, whether they answered [True] or [False]. *)
Lemma upsert_goes_on_when_deletes_return documents chunk_token_size w :
  ∃ outs rest,
    trace (upsert documents chunk_token_size w).1
      = trace w ++ zip_with delete_event (with_id documents) outs ++ rest ∧
    (Forall (fun r => is_raise r = false) outs →
     ∃ out, head rest = Some (EvChunks documents chunk_token_size out)).
Proof.
  destruct (upsert_run documents chunk_token_size w)
    as (outs & rest & Hlen & Htr & Hout).
  exists outs, rest. split; [done|].
  intros [l Hl]%join_results_all_return.
  destruct Hout as [e Hjoin|l' e Hjoin|l' chunks out Hjoin];
    [congruence|by eexists..].
Qed.

(** C4: a run of [upsert] first makes one delete call per document of
    the batch whose id is present and not empty, in batch order, each
    with no id list, a filter on that document's id and
    [delete_all=False]; each of these calls has its outcome before
    anything else happens, and what follows (chunking, then insertion)
    contains no delete call.  A document with no id, or an empty one, is
    not among the documents deleted for. *)
Theorem upsert_deletes_then_chunks_then_inserts
    documents chunk_token_size w :
  ∃ outs rest,
    trace (upsert documents chunk_token_size w).1
      = trace w ++ zip_with delete_event (with_id documents) outs ++ rest ∧
    length outs = length (with_id documents) ∧
    (∀ document,
       document ∈ with_id documents ↔
       document ∈ documents ∧
       ∃ s, Document.id document = Some s ∧ s ≠ EmptyString) ∧
    Forall (fun ev => is_delete ev = true ∧ is_chunking ev = false
                      ∧ is_insertion ev = false)
           (zip_with delete_event (with_id documents) outs) ∧
    Forall (fun ev => is_delete ev = false) rest.
Proof.
  destruct (upsert_run documents chunk_token_size w)
    as (outs & rest & Hlen & Htr & Hout).
  exists outs, rest. split; [done|]. split; [done|].
  split; [intros d; apply elem_of_with_id|].
  split; [apply delete_events_shape|].
  by eapply upsert_outcome_no_delete.
Qed.

(** C9: every delete call a run of [upsert] makes has no id list, has
    [delete_all=False], and has a filter whose only criterion is
    [document_id], set to the id of a document of the batch. *)
Theorem upsert_never_deletes_all documents chunk_token_size w :
  ∃ new,
    trace (upsert documents chunk_token_size w).1 = trace w ++ new ∧
    ∀ ids filter delete_all out,
      EvDelete ids filter delete_all out ∈ new →
      ids = None ∧ delete_all = Some false ∧
      ∃ document s,
        document ∈ documents ∧ Document.id document = Some s ∧
        filter = Some {| DocumentMetadataFilter.document_id := Some s;
                         DocumentMetadataFilter.source := None;
                         DocumentMetadataFilter.start_date := None;
                         DocumentMetadataFilter.end_date := None |}.
Proof.
  destruct (upsert_run documents chunk_token_size w)
    as (outs & rest & Hlen & Htr & Hout).
  eexists. split; [exact Htr|].
  intros ids filter delete_all out [Hin|Hin]%elem_of_app.
  - apply elem_of_lookup_zip_with in Hin
      as (i & d & o & Hev & Hd & _).
    apply list_elem_of_lookup_2, elem_of_with_id in Hd
      as (Hd & s & Hs & _).
    unfold delete_event in Hev. simplify_eq.
    split; [done|]. split; [done|]. exists d, s.
    unfold DocumentMetadataFilter.by_document_id. by rewrite Hs.
  - apply upsert_outcome_no_delete in Hout.
    rewrite Forall_forall in Hout. by apply Hout in Hin.
Qed.


(** ** [query] *)

Lemma query_run queries w :
  query queries w
  = match get_embeddings (map Query.query queries) (env w) with
    | (e1, Return es) =>
        ({| env := (_query (hydrated queries es) e1).1;
            trace := trace w
              ++ [EvEmbeddings (map Query.query queries) (Return es);
                  EvQuery (hydrated queries es)
                          (_query (hydrated queries es) e1).2] |},
         (_query (hydrated queries es) e1).2)
    | (e1, Raise e) =>
        ({| env := e1;
            trace := trace w
              ++ [EvEmbeddings (map Query.query queries) (Raise e)] |},
         Raise e)
    end.
Proof.
  unfold query, bind, call_get_embeddings, self__query.
  rewrite invoke_run.
  destruct (get_embeddings _ (env w)) as [e1 [es|e]]; simpl; [|done].
  rewrite invoke_run. simpl. by rewrite -app_assoc.
Qed.

Lemma length_hydrated queries (es : list Embedding) :
  length (hydrated queries es) = length queries `min` length es.
Proof. unfold hydrated. by rewrite length_map length_zip. Qed.

Lemma lookup_hydrated queries (es : list Embedding) i :
  hydrated queries es !! i
  = match queries !! i, es !! i with
    | Some q, Some e => Some (QueryWithEmbedding.hydrate q e)
    | _, _ => None
    end.
Proof.
  unfold hydrated. rewrite list_lookup_fmap.
  revert es i. induction queries as [|q queries IH]; intros [|e es] [|i];
    simpl; first [done | apply IH | by destruct (queries !! i)].
Qed.

Lemma hydrated_queries queries (es : list Embedding) :
  length es = length queries →
  map QueryWithEmbedding.query (hydrated queries es)
  = map Query.query queries.
Proof.
  revert es. induction queries as [|q queries IH]; intros [|e es];
    simpl; try done.
  intros [= Hlen]. f_equal. by apply IH.
Qed.

(** C1: when the embedding provider and the search primitive honour
    their contracts, and answer, [query] returns the search primitive's
    answer, having handed it every query of the batch paired with the
    embedding at the same index; the answer has one result per query of
    the batch, the i-th carrying the i-th query's string. *)
Theorem query_pairs_by_index_and_answers_in_order queries w e1 es e2 rs :
  one_embedding_per_text →
  search_answers_in_order →
  get_embeddings (map Query.query queries) (env w) = (e1, Return es) →
  _query (hydrated queries es) e1 = (e2, Return rs) →
  query queries w
    = ({| env := e2;
          trace := trace w
            ++ [EvEmbeddings (map Query.query queries) (Return es);
                EvQuery (hydrated queries es) (Return rs)] |},
       Return rs) ∧
  length (hydrated queries es) = length queries ∧
  (∀ i q, queries !! i = Some q →
     ∃ e, es !! i = Some e ∧
          hydrated queries es !! i = Some (QueryWithEmbedding.hydrate q e)) ∧
  length rs = length queries ∧
  (∀ i q, queries !! i = Some q →
     ∃ r, rs !! i = Some r ∧ QueryResult.query r = Query.query q).
Proof.
  intros Hembed Hsearch Hes Hrs.
  assert (length es = length queries) as Hlen.
  { apply Hembed in Hes. by rewrite Hes length_map. }
  assert (map QueryResult.query rs = map Query.query queries) as Horder.
  { apply Hsearch in Hrs. by rewrite Hrs hydrated_queries. }
  split; [by rewrite query_run Hes Hrs|].
  split; [rewrite length_hydrated; lia|].
  split.
  - intros i q Hq.
    destruct (lookup_lt_is_Some_2 es i) as [e He].
    { rewrite Hlen. by eapply lookup_lt_Some. }
    exists e. split; [done|]. by rewrite lookup_hydrated Hq He.
  - split.
    + by rewrite -(length_map QueryResult.query) Horder length_map.
    + intros i q Hq.
      assert (map QueryResult.query rs !! i = Some (Query.query q)) as Hi.
      { by rewrite Horder list_lookup_fmap Hq. }
      rewrite list_lookup_fmap in Hi.
      destruct (rs !! i) as [r|]; [|done]. exists r.
      split; [done|]. by injection Hi.
Qed.

(** C3 (amended): when the embedding provider answers with a number of
    vectors different from the number of queries, [query] raises nothing
    of its own: it pairs queries and vectors index by index up to the
    shorter of the two lists, leaves out the rest, hands these pairs to
    the search primitive and returns that primitive's outcome. *)
Theorem query_truncates_on_length_mismatch queries w e1 es :
  get_embeddings (map Query.query queries) (env w) = (e1, Return es) →
  length es ≠ length queries →
  query queries w
    = ({| env := (_query (hydrated queries es) e1).1;
          trace := trace w
            ++ [EvEmbeddings (map Query.query queries) (Return es);
                EvQuery (hydrated queries es)
                        (_query (hydrated queries es) e1).2] |},
       (_query (hydrated queries es) e1).2) ∧
  length (hydrated queries es) = length queries `min` length es ∧
  length (hydrated queries es) < length queries `max` length es ∧
  ∀ i, hydrated queries es !! i
       = match queries !! i, es !! i with
         | Some q, Some e => Some (QueryWithEmbedding.hydrate q e)
         | _, _ => None
         end.
Proof.
  intros Hes Hne.
  split; [by rewrite query_run Hes|].
  split; [apply length_hydrated|].
  split; [rewrite length_hydrated; lia|].
  apply lookup_hydrated.
Qed.

(** ** [retrieve] *)

Lemma has_match_results (qr : QueryResult.t) :
  has_match qr = true →
  ∃ top rest, QueryResult.results qr = top :: rest.
Proof.
  unfold has_match. destruct (QueryResult.results qr) as [|top rest]; [done|].
  by exists top, rest.
Qed.

Lemma has_match_empty (qr : QueryResult.t) :
  has_match qr = false ↔ QueryResult.results qr = [].
Proof. unfold has_match. by destruct (QueryResult.results qr). Qed.

(** One turn of the loop, for a result with no match and for one with
    matches. *)
Lemma retrieve_loop_skip (qr : QueryResult.t) qrs acc w :
  has_match qr = false →
  retrieve_loop (qr :: qrs) acc w = retrieve_loop qrs acc w.
Proof. unfold has_match. simpl. by intros ->. Qed.

Lemma retrieve_loop_ask (qr : QueryResult.t) qrs acc w :
  has_match qr = true →
  retrieve_loop (qr :: qrs) acc w
  = bind (chat (exchange qr))
         (fun chat_result => retrieve_loop qrs (acc ++ chat_result)) w.
Proof.
  intros Hqr. destruct (has_match_results qr Hqr) as (top & rest & Hres).
  unfold exchange. simpl. rewrite Hres. reflexivity.
Qed.

(** Results without a match play no part in the loop. *)
Lemma retrieve_loop_filter (qrs : list QueryResult.t) acc w :
  retrieve_loop qrs acc w = retrieve_loop (List.filter has_match qrs) acc w.
Proof.
  revert acc w. induction qrs as [|qr qrs IH]; intros acc w; [done|].
  cbn [List.filter]. destruct (has_match qr) eqn:Hqr.
  - rewrite !retrieve_loop_ask //. unfold bind.
    destruct (chat (exchange qr) w) as [w1 [ans|e]]; [apply IH|done].
  - rewrite retrieve_loop_skip //.
Qed.

(** A run of the loop over results that all have a match: the chat
    calls made are those for a prefix of the results, in order; the loop
    returns when all of them returned, with their answers appended in
    order to the accumulator. *)
Lemma retrieve_loop_answered (answered : list QueryResult.t) acc w :
  Forall (fun qr => has_match qr = true) answered →
  ∃ outs,
    trace (retrieve_loop answered acc w).1
      = trace w ++ zip_with chat_event answered outs ∧
    (length outs ≤ length answered)%nat ∧
    match join_results outs with
    | Return answers =>
        outs = map Return answers ∧
        length answers = length answered ∧
        (retrieve_loop answered acc w).2 = Return (acc ++ concat answers)
    | Raise e => (retrieve_loop answered acc w).2 = Raise e
    end.
Proof.
  intros Hall. revert acc w.
  induction Hall as [|qr answered Hqr Hall IH]; intros acc w.
  - exists []. simpl. by rewrite !app_nil_r.
  - rewrite retrieve_loop_ask //. unfold bind.
    pose proof (chat_trace (exchange qr) w) as Htr.
    destruct (chat (exchange qr) w) as [w1 [ans|e]]; simpl in Htr.
    + destruct (IH (acc ++ ans) w1) as (outs & Htr' & Hlen & Hres).
      exists (Return ans :: outs). simpl.
      split; [by rewrite Htr' Htr -app_assoc|].
      split; [lia|].
      destruct (join_results outs) as [answers|e]; [|done].
      destruct Hres as (-> & Hlen' & ->).
      by rewrite /= Hlen' -app_assoc.
    + exists [Raise e]. rewrite /= zip_with_nil_r.
      split; [exact Htr|]. split; [lia|done].
Qed.

Lemma filter_has_match (qrs : list QueryResult.t) :
  Forall (fun qr => has_match qr = true) (List.filter has_match qrs).
Proof.
  apply Forall_forall. intros qr Hin%list_elem_of_In%filter_In. tauto.
Qed.

Lemma retrieve_run queries w w1 qrs :
  query queries w = (w1, Return qrs) →
  retrieve queries w = retrieve_loop (List.filter has_match qrs) [] w1.
Proof.
  intros Hq. unfold retrieve, bind. by rewrite Hq -retrieve_loop_filter.
Qed.

Lemma elem_of_filter_has_match (qr : QueryResult.t) qrs :
  qr ∈ List.filter has_match qrs ↔ qr ∈ qrs ∧ QueryResult.results qr ≠ [].
Proof.
  rewrite !list_elem_of_In filter_In. apply and_iff_compat_l.
  unfold has_match. by destruct (QueryResult.results qr).
Qed.

(** The head of a list in descending order dominates the rest. *)
Lemma descending_head (score_le : Score → Score → Prop)
    `{!Transitive score_le} top rest :
  descending score_le (top :: rest) →
  Forall (fun m => score_le (DocumentChunkWithScore.score m)
                            (DocumentChunkWithScore.score top)) rest.
Proof.
  intros Hsorted. apply Sorted_StronglySorted in Hsorted.
  - by apply StronglySorted_inv in Hsorted as [_ Htop].
  - intros a b c Hab Hbc. by etrans.
Qed.

(** C5: once [query] has returned, [retrieve] makes its chat calls for
    the results that have a match, in order (for all of them unless a
    call raises).  For such a result the call carries, after the
    scaffold, exactly two user messages: the text of the first match,
    then the query string.  The first match is the best one when the
    matches come in descending order of score. *)
Theorem retrieve_asks_with_top_match_then_query
    (score_le : Score → Score → Prop) `{!Transitive score_le}
    queries w w1 qrs :
  query queries w = (w1, Return qrs) →
  ∃ outs,
    trace (retrieve queries w).1
      = trace w1 ++ zip_with chat_event (List.filter has_match qrs) outs ∧
    (length outs ≤ length (List.filter has_match qrs))%nat ∧
    (is_raise (retrieve queries w).2 = false →
     length outs = length (List.filter has_match qrs)) ∧
    ∀ qr,
      qr ∈ qrs → (0 < length (QueryResult.results qr))%nat →
      qr ∈ List.filter has_match qrs ∧
      ∃ top rest,
        QueryResult.results qr = top :: rest ∧
        exchange qr
          = [ Message.mk "user" (DocumentChunkWithScore.text top)
            ; Message.mk "user" (QueryResult.query qr) ] ∧
        (∀ out,
           chat_event qr out
           = EvChat
               (scaffold
                ++ [ py_dict [("role", "user");
                              ("content", DocumentChunkWithScore.text top)]
                   ; py_dict [("role", "user");
                              ("content", QueryResult.query qr)] ])
               out) ∧
        (descending score_le (QueryResult.results qr) →
         Forall (fun m => score_le (DocumentChunkWithScore.score m)
                                   (DocumentChunkWithScore.score top))
                rest).
Proof.
  intros Hq. rewrite (retrieve_run _ _ _ _ Hq).
  destruct (retrieve_loop_answered _ [] w1 (filter_has_match qrs))
    as (outs & Htr & Hlen & Hres).
  exists outs. split; [done|]. split; [done|]. split.
  - destruct (join_results outs) as [answers|e].
    + destruct Hres as (-> & <- & _). by rewrite length_map.
    + by rewrite Hres.
  - intros qr Hin Hpos. split.
    + apply elem_of_filter_has_match. split; [done|].
      intros Hnil. rewrite Hnil /= in Hpos. lia.
    + destruct (QueryResult.results qr) as [|top rest] eqn:Hqr;
        [simpl in Hpos; lia|].
      exists top, rest. split; [done|].
      unfold chat_event, exchange. rewrite Hqr.
      split; [done|]. split; [done|]. apply descending_head, _.
Qed.

(** C6: once [query] has returned, [retrieve] runs as if the results
    without a match were not there: it makes no chat call for them and
    raises nothing on their account.  When it returns, its list is the
    concatenation, in the order of the results, of the answers of the
    chat calls made for the results that have a match, one call each. *)
Theorem retrieve_skips_results_without_match queries w w1 qrs :
  query queries w = (w1, Return qrs) →
  retrieve queries w = retrieve_loop (List.filter has_match qrs) [] w1 ∧
  (∀ qr, qr ∈ List.filter has_match qrs
         ↔ qr ∈ qrs ∧ QueryResult.results qr ≠ []) ∧
  ∃ outs,
    trace (retrieve queries w).1
      = trace w1 ++ zip_with chat_event (List.filter has_match qrs) outs ∧
    match (retrieve queries w).2 with
    | Return chat_results =>
        ∃ answers,
          outs = map Return answers ∧
          length answers = length (List.filter has_match qrs) ∧
          chat_results = concat answers
    | Raise e => Exists (fun out => out = Raise e) outs
    end.
Proof.
  intros Hq. split; [by apply retrieve_run|].
  split; [intros qr; apply elem_of_filter_has_match|].
  rewrite (retrieve_run _ _ _ _ Hq).
  destruct (retrieve_loop_answered _ [] w1 (filter_has_match qrs))
    as (outs & Htr & Hlen & Hres).
  exists outs. split; [done|].
  destruct (join_results outs) as [answers|e] eqn:Hjoin.
  - destruct Hres as (Houts & Hlen' & ->). by exists answers.
  - rewrite Hres. by apply join_results_raise.
Qed.

(** ** [delete] *)

(** C8 (amended): [delete] checks nothing.  Any call, also one with
    [ids=None], [filter=None] and [delete_all] false or absent, is handed
    with its arguments unchanged to the store's own [delete], whose
    outcome is the outcome of the call. *)
Theorem delete_is_handed_to_the_store ids filter delete_all w :
  self_delete ids filter delete_all w
  = ({| env := (delete ids filter delete_all (env w)).1;
        trace := trace w
          ++ [EvDelete ids filter delete_all
                       (delete ids filter delete_all (env w)).2] |},
     (delete ids filter delete_all (env w)).2).
Proof. apply invoke_run. Qed.

End Properties.

(** * The model at work on the in-memory store *)

Import InMemory.

(** The model on a few inputs.  Strings are byte strings: each of the
    typographic apostrophes of [human_msg] and [ai_msg] counts for three. *)
Example prompt_lengths :
  String.length system_msg = 1331 ∧ String.length human_msg = 118
  ∧ String.length ai_msg = 440.
Proof. repeat split; reflexivity. Qed.

Example truthy_ids :
  truthy None = false ∧ truthy (Some EmptyString) = false
  ∧ truthy (Some "doc1") = true.
Proof. repeat split; reflexivity. Qed.

Example py_dict_later_pair_wins :
  py_dict [("role", "system"); ("role", "user")] = {["role" := "user"]}.
Proof. reflexivity. Qed.

Example upsert_three_documents :
  let run := upsert [doc1; doc_anonymous; doc_blank] None world1 in
  map is_delete (trace run.1) = [true; false; false] ∧
  head (trace run.1) = Some (delete_event doc1 (Return true)) ∧
  is_raise run.2 = false ∧
  length (List.filter (fun entry => String.eqb entry.1 "doc1") (env run.1)) = 1.
Proof. repeat split; reflexivity. Qed.

Example retrieve_two_queries :
  (retrieve [q_nowhere; q_premium] world1).2
  = Return ["What does Premium include?"].
Proof. reflexivity. Qed.

Example retrieve_sends_the_first_match :
  last (trace (retrieve [q_nowhere; q_premium] world1).1)
  = Some (EvChat
            (scaffold
             ++ [ py_dict [("role", "user");
                           ("content", "Premium plan costs $9.99/month.")]
                ; py_dict [("role", "user");
                           ("content", "What does Premium include?")] ])
            (Return ["What does Premium include?"])).
Proof. reflexivity. Qed.

(** C8, as stated, fails: a delete call that names nothing to delete is
    not rejected; it reaches the store, which answers [True]. *)
Lemma delete_without_criteria_reaches_the_store :
  self_delete None None (Some false) world1
  = ({| env := env world1;
        trace := [EvDelete None None (Some false) (Return true)] |},
     Return true) ∧
  self_delete None None None world1
  = ({| env := env world1;
        trace := [EvDelete None None None (Return true)] |},
     Return true).
Proof. split; reflexivity. Qed.

(** C3, as stated, fails: the provider answers two texts with one vector,
    and [query] returns normally, having handed the search primitive the
    first query alone, paired with the vector of the second. *)
Lemma query_goes_on_after_length_mismatch :
  let run := @query params store lossy_services [q_premium; q_nowhere] world1 in
  trace run.1
  = [EvEmbeddings ["What does Premium include?"; "Anything?"]
       (Return [embed "Anything?"]);
     EvQuery [QueryWithEmbedding.hydrate q_premium (embed "Anything?")]
       run.2] ∧
  is_raise run.2 = false ∧
  ∃ rs, run.2 = Return rs ∧ length rs = 1.
Proof. split; [reflexivity|]. split; [reflexivity|]. by eexists. Qed.

(** The in-memory collaborators honour the contracts of [query]. *)
Lemma in_memory_one_embedding_per_text : one_embedding_per_text.
Proof. intros texts e e' es [= _ <-]. apply length_map. Defined.

Lemma in_memory_search_answers_in_order : search_answers_in_order.
Proof. intros sent e e' rs [= _ <-]. by rewrite map_map. Defined.

Lemma query_pairs_by_index_witness :
  let queries := [q_premium; q_nowhere] in
  one_embedding_per_text ∧ search_answers_in_order ∧
  ∃ rs,
    (query queries world1).2 = Return rs ∧
    length rs = 2 ∧
    ∀ i q, queries !! i = Some q →
      ∃ r, rs !! i = Some r ∧ QueryResult.query r = Query.query q.
Proof.
  intros queries.
  split; [exact in_memory_one_embedding_per_text|].
  split; [exact in_memory_search_answers_in_order|].
  destruct (query_pairs_by_index_and_answers_in_order queries world1 _ _ _ _
              in_memory_one_embedding_per_text
              in_memory_search_answers_in_order eq_refl eq_refl)
    as (Hrun & _ & _ & Hlen & Horder).
  eexists. split; [by rewrite Hrun|]. split; [exact Hlen|exact Horder].
Defined.

Lemma query_truncates_witness :
  let queries := [q_premium; q_nowhere] in
  let es := [embed "Anything?"] in
  @get_embeddings _ lossy_services (map Query.query queries) (env world1)
    = (env world1, Return es) ∧
  length es ≠ length queries ∧
  is_raise (@query _ store lossy_services queries world1).2 = false ∧
  length (hydrated queries es) = 1.
Proof.
  intros queries es.
  assert (length es ≠ length queries) as Hne by (simpl; lia).
  destruct (@query_truncates_on_length_mismatch _ store lossy_services
              queries world1 _ es eq_refl Hne) as (Hrun & Hlen & _ & _).
  split; [reflexivity|]. split; [exact Hne|].
  split; [by rewrite Hrun|exact Hlen].
Defined.


Lemma upsert_never_deletes_all_witness :
  ∃ document s,
    document ∈ [doc1; doc_anonymous] ∧ Document.id document = Some s ∧
    Some (DocumentMetadataFilter.by_document_id (Some "doc1"))
    = Some {| DocumentMetadataFilter.document_id := Some s;
              DocumentMetadataFilter.source := None;
              DocumentMetadataFilter.start_date := None;
              DocumentMetadataFilter.end_date := None |}.
Proof.
  destruct (upsert_never_deletes_all [doc1; doc_anonymous] None world1)
    as (new & Htr & Hall).
  simpl in Htr. subst new.
  refine (proj2 (proj2 (Hall None _ (Some false) (Return true) _))).
  apply list_elem_of_here.
Defined.

Lemma chat_serialization_witness :
  let m := Message.mk "user" "What does Premium include?" in
  let messages := [Message.mk "user" "Premium plan costs $9.99/month."; m] in
  messages !! 1 = Some m ∧
  ∃ sent out,
    last (trace (chat messages world1).1) = Some (EvChat sent out) ∧
    sent !! 4 = Some (py_dict (Message.items m)).
Proof.
  intros m messages. split; [reflexivity|].
  exact (proj2 (proj2 (proj2 (chat_serialization_keeps_role_and_content m)))
           messages world1 1 eq_refl).
Defined.

Lemma retrieve_asks_witness :
  let queries := [q_nowhere; q_premium] in
  let w1 := (query queries world1).1 in
  let qrs := returned (query queries world1).2 in
  query queries world1 = (w1, Return qrs) ∧
  ∃ outs,
    trace (retrieve queries world1).1
      = trace w1 ++ zip_with chat_event (List.filter has_match qrs) outs ∧
    length outs = 1.
Proof.
  intros queries w1 qrs.
  assert (query queries world1 = (w1, Return qrs)) as Hq by reflexivity.
  destruct (@retrieve_asks_with_top_match_then_query params store services
              Z.le _ queries world1 w1 qrs Hq)
    as (outs & Htr & _ & Hok & _).
  split; [exact Hq|]. exists outs. split; [exact Htr|].
  apply Hok. reflexivity.
Defined.

Lemma retrieve_skips_witness :
  let queries := [q_nowhere; q_premium; q_nowhere] in
  let w1 := (query queries world1).1 in
  let qrs := returned (query queries world1).2 in
  query queries world1 = (w1, Return qrs) ∧
  length qrs = 3 ∧
  length (List.filter has_match qrs) = 1 ∧
  retrieve queries world1 = retrieve_loop (List.filter has_match qrs) [] w1.
Proof.
  intros queries w1 qrs.
  assert (query queries world1 = (w1, Return qrs)) as Hq by reflexivity.
  split; [exact Hq|]. split; [reflexivity|]. split; [reflexivity|].
  exact (proj1 (retrieve_skips_results_without_match queries world1 w1 qrs
                  Hq)).
Defined.

(** * Further properties of the orchestrator *)

Section Further.
Context `{P : Params} {DS : DataStore} {SV : Services}.

Implicit Types (w : World) (messages : list Message.t).

(** ** [upsert] *)

Lemma delete_outcomes_of_events (ds : list Document.t) outs :
  length outs = length ds →
  Forall (fun ev => delete_failed ev = false) (zip_with delete_event ds outs) →
  Forall (fun r : result Exn bool => is_raise r = false) outs.
Proof.
  revert outs. induction ds as [|d ds IH]; intros [|out outs]; simpl;
    try done.
  intros [= Hlen] [Hout Houts]%Forall_cons. constructor; auto.
Qed.

(** X1: when [upsert] returns a list of ids, every delete call returned,
    the chunker was then given the whole batch and [chunk_token_size]
    as they came, the insertion primitive was given the chunker's answer
    unchanged, and the ids are those the insertion primitive returned. *)
Theorem upsert_returns_what_insertion_returned
    documents chunk_token_size w ids :
  (upsert documents chunk_token_size w).2 = Return ids →
  ∃ outs chunks,
    trace (upsert documents chunk_token_size w).1
      = trace w ++ zip_with delete_event (with_id documents) outs
        ++ [EvChunks documents chunk_token_size (Return chunks);
            EvUpsert chunks (Return ids)] ∧
    length outs = length (with_id documents) ∧
    Forall (fun r => is_raise r = false) outs.
Proof.
  destruct (upsert_run documents chunk_token_size w)
    as (outs & rest & Hlen & Htr & Hout).
  intros Hret. rewrite Hret in Hout.
  inversion Hout as [ | |l chunks out Hjoin]; subst.
  exists outs, chunks. split; [done|]. split; [done|].
  by eapply join_results_return.
Qed.

(** X2: when the chunker raises, [upsert] raises the same exception and
    makes no insertion call; by then every delete call of the batch has
    been made and has returned: the deletions are not undone. *)
Theorem upsert_chunker_failure_comes_after_deletes
    documents chunk_token_size w new e :
  trace (upsert documents chunk_token_size w).1 = trace w ++ new →
  EvChunks documents chunk_token_size (Raise e) ∈ new →
  (upsert documents chunk_token_size w).2 = Raise e ∧
  ∃ outs,
    new = zip_with delete_event (with_id documents) outs
          ++ [EvChunks documents chunk_token_size (Raise e)] ∧
    length outs = length (with_id documents) ∧
    Forall (fun r => is_raise r = false) outs.
Proof.
  destruct (upsert_run documents chunk_token_size w)
    as (outs & rest & Hlen & Htr & Hout).
  rewrite Htr. intros <-%app_inv_head [Hin|Hin]%elem_of_app.
  - by apply elem_of_lookup_zip_with in Hin as (i & d & o & Hev & _).
  - destruct Hout as [e' Hjoin|l e' Hjoin|l chunks out Hjoin].
    + by apply elem_of_nil in Hin.
    + apply list_elem_of_singleton in Hin. injection Hin as ->.
      split; [done|]. exists outs. split; [done|]. split; [done|].
      by eapply join_results_return.
    + apply elem_of_cons in Hin as [[=]|Hin].
      by apply list_elem_of_singleton in Hin.
Qed.

(** X3: [upsert] does not look at what the delete calls answer.  When
    none of them raises, whether they answered [True] or [False], the
    next call is the chunker's, with the whole batch. *)
Theorem upsert_ignores_delete_answers documents chunk_token_size w new :
  trace (upsert documents chunk_token_size w).1 = trace w ++ new →
  Forall (fun ev => delete_failed ev = false) new →
  ∃ outs out,
    take (length (with_id documents)) new
      = zip_with delete_event (with_id documents) outs ∧
    length outs = length (with_id documents) ∧
    new !! length (with_id documents)
      = Some (EvChunks documents chunk_token_size out).
Proof.
  destruct (upsert_run documents chunk_token_size w)
    as (outs & rest & Hlen & Htr & Hout).
  rewrite Htr. intros <-%app_inv_head [Hdels _]%Forall_app.
  apply delete_outcomes_of_events, join_results_all_return in Hdels
    as [l Hl]; [|done].
  assert (length (zip_with delete_event (with_id documents) outs)
          = length (with_id documents)) as Hn.
  { rewrite length_zip_with. lia. }
  destruct Hout as [e' Hjoin|l' e' Hjoin|l' chunks out Hjoin];
    [congruence| |].
  all: eexists outs, _; split; [by rewrite -Hn take_app_length|];
    split; [done|]; by rewrite -Hn list_lookup_middle.
Qed.

(** X4: a run of [upsert] calls nothing but the store's [delete], the
    chunker and the insertion primitive: it never calls the embedding
    provider, the search primitive or the chat primitive. *)
Theorem upsert_only_deletes_chunks_and_inserts documents chunk_token_size w :
  ∃ new,
    trace (upsert documents chunk_token_size w).1 = trace w ++ new ∧
    Forall (fun ev => is_delete ev || is_chunking ev || is_insertion ev = true)
           new.
Proof.
  destruct (upsert_run documents chunk_token_size w)
    as (outs & rest & Hlen & Htr & Hout).
  eexists. split; [exact Htr|]. apply Forall_app. split.
  - eapply Forall_impl; [apply delete_events_shape|].
    by intros ev (-> & _).
  - destruct Hout; repeat constructor.
Qed.

(** ** [query] *)

(** X5: [query] raises nothing of its own.  When it raises, either the
    embedding provider raised that exception, and the search primitive was
    not called, or the search primitive raised it. *)
Theorem query_raises_what_a_collaborator_raised queries w e :
  (query queries w).2 = Raise e →
  trace (query queries w).1
    = trace w ++ [EvEmbeddings (map Query.query queries) (Raise e)] ∨
  ∃ es,
    trace (query queries w).1
      = trace w ++ [EvEmbeddings (map Query.query queries) (Return es);
                    EvQuery (hydrated queries es) (Raise e)].
Proof.
  rewrite query_run.
  destruct (get_embeddings _ (env w)) as [e1 [es|e']]; simpl.
  - intros Hsearch. right. exists es. by rewrite Hsearch.
  - intros [= ->]. by left.
Qed.

(** X6: when [query] returns, it returns the very list the search
    primitive returned, after one call of the provider with the query
    strings of the whole batch in order and one call of the search
    primitive: the results are not re-ranked, merged or filtered. *)
Theorem query_returns_what_search_returned queries w rs :
  (query queries w).2 = Return rs →
  ∃ es,
    trace (query queries w).1
      = trace w ++ [EvEmbeddings (map Query.query queries) (Return es);
                    EvQuery (hydrated queries es) (Return rs)].
Proof.
  rewrite query_run.
  destruct (get_embeddings _ (env w)) as [e1 [es|e']]; simpl; [|done].
  intros Hsearch. exists es. by rewrite Hsearch.
Qed.

(** X7: whatever the provider answers, every query the search primitive
    receives is the query of the batch at the same index with nothing but
    the embedding added: query string, filter and [top_k] are kept. *)
Theorem query_keeps_filter_and_top_k queries w new sent out i qe :
  trace (query queries w).1 = trace w ++ new →
  EvQuery sent out ∈ new →
  sent !! i = Some qe →
  ∃ q,
    queries !! i = Some q ∧
    QueryWithEmbedding.query qe = Query.query q ∧
    QueryWithEmbedding.filter qe = Query.filter q ∧
    QueryWithEmbedding.top_k qe = Query.top_k q.
Proof.
  rewrite query_run.
  destruct (get_embeddings _ (env w)) as [e1 [es|e']]; simpl;
    intros <-%app_inv_head Hin Hqe.
  - apply elem_of_cons in Hin as [[=]|Hin].
    apply list_elem_of_singleton in Hin. injection Hin as -> _.
    rewrite lookup_hydrated in Hqe.
    destruct (queries !! i) as [q|]; [|done].
    destruct (es !! i) as [v|]; [|done].
    injection Hqe as <-. by exists q.
  - by apply list_elem_of_singleton in Hin.
Qed.

(** ** [chat] *)

Lemma py_dict_message_lookups (m : Message.t) :
  py_dict (Message.items m) !! "role" = Some (Message.role m) ∧
  py_dict (Message.items m) !! "content" = Some (Message.content m).
Proof. split; reflexivity. Qed.

Lemma py_dict_message_inj (m1 m2 : Message.t) :
  py_dict (Message.items m1) = py_dict (Message.items m2) → m1 = m2.
Proof.
  intros Heq.
  destruct (py_dict_message_lookups m1) as [Hrole1 Hcontent1].
  destruct (py_dict_message_lookups m2) as [Hrole2 Hcontent2].
  rewrite Heq Hrole2 in Hrole1. rewrite Heq Hcontent2 in Hcontent1.
  destruct m1, m2. simpl in *. congruence.
Qed.

(** X8: nothing of the caller's messages is lost or merged on the way to
    the chat primitive: two calls of [chat] that hand it the same list of
    dicts were given the same list of messages. *)
Theorem chat_payload_determines_messages
    messages1 messages2 w1 w2 sent out1 out2 :
  last (trace (chat messages1 w1).1) = Some (EvChat sent out1) →
  last (trace (chat messages2 w2).1) = Some (EvChat sent out2) →
  messages1 = messages2.
Proof.
  rewrite !chat_trace !last_snoc. intros [= <- _] [= Heq _].
  symmetry in Heq. revert Heq.
  apply (list_fmap_eq_inj (fun m => py_dict (Message.items m))).
  intros m1 m2. apply py_dict_message_inj.
Qed.

(** X9: every dict [chat] hands to the chat primitive, scaffold included,
    has the two keys ["role"] and ["content"] and no other. *)
Theorem chat_payload_has_role_and_content messages w sent out :
  last (trace (chat messages w).1) = Some (EvChat sent out) →
  Forall (fun d : Dict => dom d = ({["role"; "content"]} : gset string)) sent.
Proof.
  rewrite chat_trace last_snoc. intros [= <- _].
  do 3 (apply Forall_cons; split; [reflexivity|]).
  apply Forall_forall. intros d (m & -> & _)%list_elem_of_fmap.
  rewrite py_dict_message dom_insert_L dom_singleton_L. set_solver.
Qed.

(** ** [retrieve] *)

Lemma chat_events_are_chats (qrs : list QueryResult.t) outs :
  Forall (fun ev => is_chat ev = true) (zip_with chat_event qrs outs).
Proof.
  revert outs. induction qrs as [|qr qrs IH]; intros [|out outs]; simpl;
    constructor; auto.
Qed.

(** In a run of the loop over results that all have a match, a chat call
    that raises is the last call made. *)
Lemma retrieve_loop_first_raise (answered : list QueryResult.t) acc w :
  Forall (fun qr => has_match qr = true) answered →
  ∃ outs,
    trace (retrieve_loop answered acc w).1
      = trace w ++ zip_with chat_event answered outs ∧
    (length outs ≤ length answered)%nat ∧
    ∀ i e, outs !! i = Some (Raise e) →
      length outs = S i ∧ (retrieve_loop answered acc w).2 = Raise e.
Proof.
  intros Hall. revert acc w.
  induction Hall as [|qr answered Hqr Hall IH]; intros acc w.
  - exists []. rewrite /= app_nil_r. split; [done|]. split; [done|].
    by intros i e.
  - rewrite retrieve_loop_ask //. unfold bind.
    pose proof (chat_trace (exchange qr) w) as Htr.
    destruct (chat (exchange qr) w) as [w1 [ans|e]]; simpl in Htr.
    + destruct (IH (acc ++ ans) w1) as (outs & Htr' & Hlen & Hstop).
      exists (Return ans :: outs). simpl.
      split; [by rewrite Htr' Htr -app_assoc|]. split; [lia|].
      intros [|i] e; [done|]. simpl. intros [-> ?]%Hstop. done.
    + exists [Raise e]. rewrite /= zip_with_nil_r.
      split; [exact Htr|]. split; [lia|].
      intros [|i] e'; [by intros [= ->]|done].
Qed.

(** X10: once [query] has returned, the chat calls of [retrieve] stop at
    the first one that raises: it is the last call made, no call is made
    for the results after it, and [retrieve] raises that exception in
    place of the answers gathered so far. *)
Theorem retrieve_stops_at_first_failed_chat queries w w1 qrs :
  query queries w = (w1, Return qrs) →
  ∃ outs,
    trace (retrieve queries w).1
      = trace w1 ++ zip_with chat_event (List.filter has_match qrs) outs ∧
    (length outs ≤ length (List.filter has_match qrs))%nat ∧
    ∀ i e, outs !! i = Some (Raise e) →
      length outs = S i ∧ (retrieve queries w).2 = Raise e.
Proof.
  intros Hq. rewrite (retrieve_run _ _ _ _ Hq).
  apply retrieve_loop_first_raise, filter_has_match.
Qed.

Lemma read_by_retrieve_eq (qr qr' : QueryResult.t) :
  read_by_retrieve qr = read_by_retrieve qr' →
  has_match qr = has_match qr' ∧ exchange qr = exchange qr'.
Proof.
  unfold read_by_retrieve, has_match, exchange.
  destruct (QueryResult.results qr) as [|top rest],
    (QueryResult.results qr') as [|top' rest']; simpl; try done.
  by intros [= -> ->].
Qed.

(** X11: the loop of [retrieve] reads nothing of a query result but its
    query string and the text of its first match.  Two lists of results
    that agree on these, position by position, lead to the same chat
    calls and the same outcome, whatever their other matches, scores,
    chunk ids, metadata and embeddings. *)
Theorem retrieve_loop_reads_query_and_top_text
    (qrs qrs' : list QueryResult.t) acc w :
  map read_by_retrieve qrs = map read_by_retrieve qrs' →
  retrieve_loop qrs acc w = retrieve_loop qrs' acc w.
Proof.
  revert qrs' acc w.
  induction qrs as [|qr qrs IH]; intros [|qr' qrs'] acc w; try done.
  intros Heq.
  assert (read_by_retrieve qr = read_by_retrieve qr'
          ∧ map read_by_retrieve qrs = map read_by_retrieve qrs')
    as [Hread Hrest].
  { change (read_by_retrieve qr :: map read_by_retrieve qrs
            = read_by_retrieve qr' :: map read_by_retrieve qrs') in Heq.
    split; congruence. }
  apply read_by_retrieve_eq in Hread as [Hm Hx].
  destruct (has_match qr) eqn:Hqr.
  - rewrite !retrieve_loop_ask // -Hx. unfold bind.
    destruct (chat (exchange qr) w) as [w1 [ans|e]]; [by apply IH|done].
  - rewrite !retrieve_loop_skip //. by apply IH.
Qed.

(** X12: when no result that [query] returned has a match, [retrieve]
    returns the empty list, without an error and without a chat call. *)
Theorem retrieve_without_any_match queries w w1 qrs :
  query queries w = (w1, Return qrs) →
  Forall (fun qr => QueryResult.results qr = []) qrs →
  retrieve queries w = (w1, Return []).
Proof.
  intros Hq Hall. unfold retrieve, bind. rewrite Hq.
  generalize (@nil ChatResult). clear Hq.
  induction Hall as [|qr qrs Hqr Hall IH]; intros acc; [done|].
  rewrite retrieve_loop_skip; [by apply has_match_empty|apply IH].
Qed.

(** X13: the loop of [retrieve] treats a list of results piece by piece:
    running it over [qrs1 ++ qrs2] is running it over [qrs1] and, if that
    returns, over [qrs2] with the answers gathered so far. *)
Theorem retrieve_loop_app (qrs1 qrs2 : list QueryResult.t) acc w :
  retrieve_loop (qrs1 ++ qrs2) acc w
  = bind (retrieve_loop qrs1 acc) (fun acc' => retrieve_loop qrs2 acc') w.
Proof.
  revert acc w. induction qrs1 as [|qr qrs1 IH]; intros acc w; [done|].
  rewrite -app_comm_cons. unfold bind. destruct (has_match qr) eqn:Hqr.
  - rewrite !retrieve_loop_ask //. unfold bind.
    destruct (chat (exchange qr) w) as [w1 [ans|e]]; [|done].
    by rewrite IH.
  - by rewrite !retrieve_loop_skip // IH.
Qed.

(** X14: a run of [retrieve] calls the embedding provider once, first,
    with the query strings of the whole batch in order; then the search
    primitive, at most once; then the chat primitive only.  It never
    calls the store's [delete], the chunker or the insertion primitive. *)
Theorem retrieve_embeds_once_searches_once_then_chats queries w :
  ∃ out1 rest,
    trace (retrieve queries w).1
      = trace w ++ EvEmbeddings (map Query.query queries) out1 :: rest ∧
    Forall (fun ev => is_search ev = true) (take 1 rest) ∧
    Forall (fun ev => is_chat ev = true) (drop 1 rest).
Proof.
  unfold retrieve, bind. rewrite query_run.
  destruct (get_embeddings _ (env w)) as [e1 [es|e]]; simpl.
  - destruct (_query (hydrated queries es) e1) as [e2 [qrs|e]]; simpl.
    + rewrite retrieve_loop_filter.
      destruct (retrieve_loop_answered (List.filter has_match qrs) []
                  {| env := e2;
                     trace := trace w
                       ++ [EvEmbeddings (map Query.query queries) (Return es);
                           EvQuery (hydrated queries es) (Return qrs)] |}
                  (filter_has_match qrs)) as (outs & Htr & _ & _).
      rewrite Htr /= -app_assoc /=. eexists _, _. split; [done|].
      split; [by repeat constructor|apply chat_events_are_chats].
    + eexists _, _. split; [done|]. by repeat constructor.
  - eexists _, []. split; [done|]. by repeat constructor.
Qed.

End Further.

(** * The further properties on the in-memory store *)

Lemma upsert_returns_witness :
  let run := upsert [doc1; doc_anonymous] None world1 in
  run.2 = Return (returned run.2) ∧
  ∃ outs,
    length outs = length (with_id [doc1; doc_anonymous]) ∧
    Forall (fun r : result Exn bool => is_raise r = false) outs.
Proof.
  intros run.
  assert (run.2 = Return (returned run.2)) as Hret by reflexivity.
  destruct (upsert_returns_what_insertion_returned _ _ _ _ Hret)
    as (outs & chunks & _ & Hlen & Hall).
  split; [exact Hret|]. exists outs. exact (conj Hlen Hall).
Defined.

Lemma upsert_chunker_failure_witness :
  let run := @upsert params store broken_chunker [doc1; doc_anonymous] None world1 in
  let new := trace run.1 in
  trace run.1 = trace world1 ++ new ∧
  EvChunks [doc1; doc_anonymous] None (Raise index_error) ∈ new ∧
  run.2 = Raise index_error.
Proof.
  intros run new.
  assert (trace run.1 = trace world1 ++ new) as Htr by reflexivity.
  assert (EvChunks [doc1; doc_anonymous] None (Raise index_error) ∈ new)
    as Hin by apply list_elem_of_further, list_elem_of_here.
  split; [exact Htr|]. split; [exact Hin|].
  exact (proj1 (@upsert_chunker_failure_comes_after_deletes params store
                  broken_chunker _ _ _ _ _ Htr Hin)).
Defined.

Lemma upsert_ignores_delete_answers_witness :
  let run := upsert [doc1; doc_anonymous] None world1 in
  let new := trace run.1 in
  trace run.1 = trace world1 ++ new ∧
  Forall (fun ev => delete_failed ev = false) new ∧
  ∃ out, new !! 1 = Some (EvChunks [doc1; doc_anonymous] None out).
Proof.
  intros run new.
  assert (trace run.1 = trace world1 ++ new) as Htr by reflexivity.
  assert (Forall (fun ev => delete_failed ev = false) new) as Hok
    by (repeat apply Forall_cons_2; [reflexivity..|apply Forall_nil_2]).
  destruct (upsert_ignores_delete_answers _ _ _ _ Htr Hok)
    as (outs & out & _ & _ & Hnext).
  split; [exact Htr|]. split; [exact Hok|]. exists out. exact Hnext.
Defined.

Lemma query_raises_witness :
  let run := @query params store unreachable_provider [q_premium] world1 in
  run.2 = Raise index_error ∧
  (trace run.1
     = trace world1
       ++ [EvEmbeddings (map Query.query [q_premium]) (Raise index_error)] ∨
   ∃ es,
     trace run.1
       = trace world1
         ++ [EvEmbeddings (map Query.query [q_premium]) (Return es);
             EvQuery (hydrated [q_premium] es) (Raise index_error)]).
Proof.
  intros run.
  assert (run.2 = Raise index_error) as Hraise by reflexivity.
  split; [exact Hraise|].
  exact (@query_raises_what_a_collaborator_raised params store
           unreachable_provider _ _ _ Hraise).
Defined.

Lemma query_returns_witness :
  let run := query [q_premium; q_nowhere] world1 in
  run.2 = Return (returned run.2) ∧
  ∃ es,
    trace run.1
      = trace world1
        ++ [EvEmbeddings (map Query.query [q_premium; q_nowhere]) (Return es);
            EvQuery (hydrated [q_premium; q_nowhere] es)
                    (Return (returned run.2))].
Proof.
  intros run.
  assert (run.2 = Return (returned run.2)) as Hret by reflexivity.
  split; [exact Hret|].
  exact (query_returns_what_search_returned _ _ _ Hret).
Defined.

Lemma query_keeps_filter_witness :
  let queries := [q_premium; q_nowhere] in
  let run := @query params store lossy_services queries world1 in
  let sent := [QueryWithEmbedding.hydrate q_premium (embed "Anything?")] in
  trace run.1 = trace world1 ++ trace run.1 ∧
  EvQuery sent run.2 ∈ trace run.1 ∧
  ∃ q, queries !! 0 = Some q ∧ Query.top_k q = Some 3%Z.
Proof.
  intros queries run sent.
  assert (trace run.1 = trace world1 ++ trace run.1) as Htr by reflexivity.
  assert (EvQuery sent run.2 ∈ trace run.1) as Hin
    by apply list_elem_of_further, list_elem_of_here.
  destruct (@query_keeps_filter_and_top_k params store lossy_services queries
              world1 _ sent run.2 0 _ Htr Hin eq_refl)
    as (q & Hq & _ & _ & Htop).
  split; [exact Htr|]. split; [exact Hin|]. exists q.
  split; [exact Hq|]. by rewrite -Htop.
Defined.

Lemma chat_payload_determines_witness :
  let messages := [Message.mk "user" "What does Premium include?"] in
  let sent := scaffold ++ map (fun m => py_dict (Message.items m)) messages in
  last (trace (chat messages world0).1)
    = Some (EvChat sent (chat messages world0).2) ∧
  last (trace (chat messages world1).1)
    = Some (EvChat sent (chat messages world1).2) ∧
  messages = messages.
Proof.
  intros messages sent.
  assert (last (trace (chat messages world0).1)
          = Some (EvChat sent (chat messages world0).2)) as H0 by reflexivity.
  assert (last (trace (chat messages world1).1)
          = Some (EvChat sent (chat messages world1).2)) as H1 by reflexivity.
  split; [exact H0|]. split; [exact H1|].
  exact (chat_payload_determines_messages _ _ _ _ _ _ _ H0 H1).
Defined.

Lemma chat_payload_keys_witness :
  let messages := [Message.mk "user" "What does Premium include?"] in
  let sent := scaffold ++ map (fun m => py_dict (Message.items m)) messages in
  last (trace (chat messages world1).1)
    = Some (EvChat sent (chat messages world1).2) ∧
  Forall (fun d : Dict => dom d = ({["role"; "content"]} : gset string)) sent.
Proof.
  intros messages sent.
  assert (last (trace (chat messages world1).1)
          = Some (EvChat sent (chat messages world1).2)) as H1 by reflexivity.
  split; [exact H1|].
  exact (chat_payload_has_role_and_content _ _ _ _ H1).
Defined.

Lemma retrieve_stops_witness :
  let queries := [q_premium; q_anything; q_premium] in
  let run := @query params reticent_store services queries world1 in
  let qrs := returned run.2 in
  run = (run.1, Return qrs) ∧
  ∃ outs,
    trace (@retrieve params reticent_store services queries world1).1
      = trace run.1 ++ zip_with chat_event (List.filter has_match qrs) outs ∧
    (length outs ≤ length (List.filter has_match qrs))%nat ∧
    ∀ i e, outs !! i = Some (Raise e) →
      length outs = S i ∧
      (@retrieve params reticent_store services queries world1).2 = Raise e.
Proof.
  intros queries run qrs.
  assert (run = (run.1, Return qrs)) as Hq by reflexivity.
  split; [exact Hq|].
  exact (@retrieve_stops_at_first_failed_chat params reticent_store services
           queries world1 run.1 qrs Hq).
Defined.

Lemma retrieve_loop_reads_witness :
  map read_by_retrieve [result_two_matches]
    = map read_by_retrieve [result_one_match] ∧
  retrieve_loop [result_two_matches] [] world1
    = retrieve_loop [result_one_match] [] world1.
Proof.
  assert (map read_by_retrieve [result_two_matches]
          = map read_by_retrieve [result_one_match]) as Hread by reflexivity.
  split; [exact Hread|].
  exact (retrieve_loop_reads_query_and_top_text _ _ [] world1 Hread).
Defined.

Lemma retrieve_without_match_witness :
  let queries := [q_nowhere; q_nowhere] in
  let run := query queries world1 in
  let qrs := returned run.2 in
  run = (run.1, Return qrs) ∧
  Forall (fun qr => QueryResult.results qr = []) qrs ∧
  retrieve queries world1 = (run.1, Return []).
Proof.
  intros queries run qrs.
  assert (run = (run.1, Return qrs)) as Hq by reflexivity.
  assert (Forall (fun qr => QueryResult.results qr = []) qrs) as Hall
    by (repeat apply Forall_cons_2; [reflexivity..|apply Forall_nil_2]).
  split; [exact Hq|]. split; [exact Hall|].
  exact (retrieve_without_any_match queries world1 run.1 qrs Hq Hall).
Defined.

(** The failing chat call of the reticent store is the second and last
    one: no call is made for the third query. *)
Example retrieve_stops_at_the_second_question :
  let run := @retrieve params reticent_store services
               [q_premium; q_anything; q_premium] world1 in
  run.2 = Raise store_locked ∧
  map is_chat (trace run.1) = [false; false; true; true].
Proof. split; reflexivity. Qed.
